(** * MediPay: the ledger store of [app.py]

    A shallow embedding of the classes [Medico], [Atendimento] and
    [Financeiro] of [src/app.py], of the SQLite snapshot they persist to and
    of the one route that guards the store ([novo_atendimento]), followed by
    the properties of the store.

    Modelling choices, all read off the source:
    - a Python [float] is an IEEE binary64 number: [PrimFloat.float];
    - a Python [int] is [Z]; [len] of a list is [Z.of_nat (length _)];
    - [Medico] objects are mutable and shared: an [Atendimento] keeps a
      reference to the very object that sits in [Financeiro.medicos], and
      [atualizar_medico] assigns to its attributes in place. Objects
      therefore live in a store ([objs]) and are named by references;
    - a method of [Financeiro] is a state transformer that either returns or
      raises; what it assigned before raising stays assigned;
    - the database file is the pair of its two tables. [id INTEGER PRIMARY
      KEY] makes an [INSERT] with a key already present fail, [REAL NOT NULL]
      makes an [INSERT] of a NaN fail (SQLite binds NaN as NULL); both are
      [sqlite3.IntegrityError]. A full scan returns the rows by ascending
      rowid. Foreign keys are declared but not enforced (the connection
      never turns the pragma on). A connection that did not commit is
      dropped with its transaction. Ids are taken to fit SQLite's 64-bit
      integers and names to be encodable text, as they are in every state
      the routes can produce. *)

From Stdlib Require Import ZArith String PrimFloat.
From stdpp Require Import base functions list.

Open Scope Z_scope.

(** ** Values *)

Abbreviation ref := nat (only parsing).

(** [class Medico] *)
Record Medico := mkMedico {
  Medico_id : Z;
  Medico_nome : string;
  Medico_percentual_repasse : float
}.

(** [class Atendimento]; [Atendimento_medico] is the reference held in
    [self.medico]. *)
Record Atendimento := mkAtendimento {
  Atendimento_id : Z;
  Atendimento_medico : ref;
  Atendimento_valor : float
}.

(** Rows of [medicos (id, nome, percentual_repasse)] and of
    [atendimentos (id, medico_id, valor)]. *)
Definition MedicoRow : Type := Z * string * float.
Definition AtendimentoRow : Type := Z * Z * float.

Record Database := mkDatabase {
  tbl_medicos : list MedicoRow;
  tbl_atendimentos : list AtendimentoRow
}.

(** [class Financeiro], together with the object store and the contents of
    the file at [_db_path]. [next] is the first reference never handed
    out. *)
Record Financeiro := mkFinanceiro {
  objs : ref → Medico;
  next : ref;
  medicos : list ref;
  atendimentos : list Atendimento;
  db : Database
}.

(** ** Exceptions and methods *)

Inductive exn := IntegrityError.

Inductive result (A : Type) :=
  | Ok (a : A)
  | Raise (e : exn).
Arguments Ok {A} a.
Arguments Raise {A} e.

Definition Metodo (A : Type) : Type := Financeiro → Financeiro * result A.

#[global] Instance Metodo_ret : MRet Metodo := λ A a s, (s, Ok a).
#[global] Instance Metodo_bind : MBind Metodo := λ A B k m s,
  match m s with
  | (s', Ok a) => k a s'
  | (s', Raise e) => (s', Raise e)
  end.

Definition self : Metodo Financeiro := λ s, (s, Ok s).
Definition assign (f : Financeiro → Financeiro) : Metodo unit := λ s, (f s, Ok tt).

Definition set_objs (h : ref → Medico) (s : Financeiro) : Financeiro :=
  mkFinanceiro h (next s) (medicos s) (atendimentos s) (db s).
Definition set_medicos (l : list ref) (s : Financeiro) : Financeiro :=
  mkFinanceiro (objs s) (next s) l (atendimentos s) (db s).
Definition set_atendimentos (l : list Atendimento) (s : Financeiro) : Financeiro :=
  mkFinanceiro (objs s) (next s) (medicos s) l (db s).
Definition set_db (d : Database) (s : Financeiro) : Financeiro :=
  mkFinanceiro (objs s) (next s) (medicos s) (atendimentos s) d.

(** [Medico(id, nome, percentual_repasse)]: a new object. *)
Definition Medico_new (m : Medico) : Metodo ref := λ s,
  (mkFinanceiro (<[next s := m]> (objs s)) (S (next s))
                (medicos s) (atendimentos s) (db s),
   Ok (next s)).

(** [medico.nome = nome] and [medico.percentual_repasse = p]. *)
Definition set_nome (n : string) (m : Medico) : Medico :=
  mkMedico (Medico_id m) n (Medico_percentual_repasse m).
Definition set_percentual_repasse (p : float) (m : Medico) : Medico :=
  mkMedico (Medico_id m) (Medico_nome m) p.

(** [Atendimento.calcular_repasse], the object store made explicit. *)
Definition calcular_repasse (s : Financeiro) (a : Atendimento) : float :=
  (Atendimento_valor a
   * (Medico_percentual_repasse (objs s (Atendimento_medico a)) / 100))%float.

(** ** The database *)

Section Table.
Context {R : Type} (key : R → Z) (real : R → float).

(** Rows are kept in rowid order, the order of a full scan. *)
Fixpoint rowid_insert (row : R) (t : list R) : list R :=
  match t with
  | [] => [row]
  | x :: t' =>
      if key row <? key x then row :: x :: t' else x :: rowid_insert row t'
  end.

(** [INSERT INTO t VALUES row] under [PRIMARY KEY] and [REAL NOT NULL]. *)
Definition sql_insert (t : list R) (row : R) : result (list R) :=
  if is_nan (real row) then Raise IntegrityError
  else if bool_decide (key row ∈ key <$> t) then Raise IntegrityError
  else Ok (rowid_insert row t).

(** A [for] loop of [INSERT]s; the first failure ends it. *)
Fixpoint sql_insert_all (rows : list R) (t : list R) : result (list R) :=
  match rows with
  | [] => Ok t
  | row :: rows' =>
      match sql_insert t row with
      | Ok t' => sql_insert_all rows' t'
      | Raise e => Raise e
      end
  end.
End Table.

Definition medico_key (row : MedicoRow) : Z := row.1.1.
Definition medico_real (row : MedicoRow) : float := row.2.
Definition atendimento_key (row : AtendimentoRow) : Z := row.1.1.
Definition atendimento_real (row : AtendimentoRow) : float := row.2.

(** The tuples bound by the two [INSERT] statements of [salvar_dados]. *)
Definition medico_row (s : Financeiro) (r : ref) : MedicoRow :=
  let m := objs s r in
  (Medico_id m, Medico_nome m, Medico_percentual_repasse m).
Definition atendimento_row (s : Financeiro) (a : Atendimento) : AtendimentoRow :=
  (Atendimento_id a, Medico_id (objs s (Atendimento_medico a)), Atendimento_valor a).

(** The transaction of [salvar_dados]: both tables emptied, then refilled
    from memory. *)
Definition snapshot (s : Financeiro) : result Database :=
  match sql_insert_all medico_key medico_real (medico_row s <$> medicos s) [] with
  | Raise e => Raise e
  | Ok tm =>
      match sql_insert_all atendimento_key atendimento_real
              (atendimento_row s <$> atendimentos s) [] with
      | Raise e => Raise e
      | Ok ta => Ok (mkDatabase tm ta)
      end
  end.

(** ** [Financeiro] *)

(** [next((m for m in self.medicos if m.id == medico_id), None)] *)
Definition obter_medico_por_id (s : Financeiro) (medico_id : Z) : option ref :=
  find (λ r, Medico_id (objs s r) =? medico_id) (medicos s).

Definition listar_medicos (s : Financeiro) : list ref := medicos s.
Definition listar_atendimentos (s : Financeiro) : list Atendimento := atendimentos s.

(** [salvar_dados]: the commit is reached only when no [INSERT] raised;
    otherwise the file keeps what it held. *)
Definition salvar_dados : Metodo unit := λ s,
  match snapshot s with
  | Ok d => (set_db d s, Ok tt)
  | Raise e => (s, Raise e)
  end.

(** [carregar_dados] *)
Definition carregar_medico (row : MedicoRow) : Metodo unit :=
  let '(id, nome, percentual_repasse) := row in
  r ← Medico_new (mkMedico id nome percentual_repasse);
  assign (λ s, set_medicos (medicos s ++ [r]) s).

Definition carregar_atendimento (row : AtendimentoRow) : Metodo unit :=
  let '(at_id, med_id, valor) := row in
  s ← self;
  match obter_medico_por_id s med_id with
  | Some medico =>
      assign (set_atendimentos (atendimentos s ++ [mkAtendimento at_id medico valor]))
  | None => mret tt
  end.

Fixpoint for_each {A : Type} (body : A → Metodo unit) (l : list A) : Metodo unit :=
  match l with
  | [] => mret tt
  | x :: l' => body x ;; for_each body l'
  end.

Definition carregar_dados : Metodo unit :=
  assign (set_medicos []) ;;
  assign (set_atendimentos []) ;;
  s ← self;
  for_each carregar_medico (tbl_medicos (db s)) ;;
  for_each carregar_atendimento (tbl_atendimentos (db s)).

Definition cadastrar_medico (nome : string) (percentual_repasse : float) : Metodo ref :=
  s ← self;
  let medico_id := Z.of_nat (length (medicos s)) + 1 in
  medico ← Medico_new (mkMedico medico_id nome percentual_repasse);
  assign (λ s, set_medicos (medicos s ++ [medico]) s) ;;
  salvar_dados ;;
  mret medico.

Definition atualizar_medico (medico_id : Z) (nome : option string)
    (percentual_repasse : option float) : Metodo bool :=
  s ← self;
  match obter_medico_por_id s medico_id with
  | None => mret false
  | Some medico =>
      match nome with
      | Some n => assign (λ s, set_objs (alter (set_nome n) medico (objs s)) s)
      | None => mret tt
      end ;;
      match percentual_repasse with
      | Some p =>
          assign (λ s, set_objs (alter (set_percentual_repasse p) medico (objs s)) s)
      | None => mret tt
      end ;;
      salvar_dados ;;
      mret true
  end.

(** [list.remove]: the first occurrence goes. *)
Fixpoint list_remove (x : ref) (l : list ref) : list ref :=
  match l with
  | [] => []
  | y :: l' => if decide (y = x) then l' else y :: list_remove x l'
  end.

Definition remover_medico (medico_id : Z) : Metodo bool :=
  s ← self;
  match obter_medico_por_id s medico_id with
  | Some medico =>
      assign (λ s, set_medicos (list_remove medico (medicos s)) s) ;;
      salvar_dados ;;
      mret true
  | None => mret false
  end.

Definition registrar_atendimento (medico_id : Z) (valor : float)
    : Metodo (option Atendimento) :=
  s ← self;
  match obter_medico_por_id s medico_id with
  | None => mret None
  | Some medico =>
      let atendimento_id := Z.of_nat (length (atendimentos s)) + 1 in
      let atendimento := mkAtendimento atendimento_id medico valor in
      assign (λ s, set_atendimentos (atendimentos s ++ [atendimento]) s) ;;
      salvar_dados ;;
      mret (Some atendimento)
  end.

(** The builtin [sum]: addition from the left, starting at zero. (Recent
    CPython compensates the rounding of this loop; nothing below depends on
    how the additions round, only on the list summed and on the empty sum
    being zero.) *)
Definition sum (l : list float) : float := fold_left PrimFloat.add l 0%float.

Record Relatorio := mkRelatorio {
  faturamento_total : float;
  total_repasse : float;
  lucro_liquido : float;
  qtd_atendimentos : Z;
  qtd_medicos : Z
}.

Definition relatorio_financeiro : Metodo Relatorio :=
  s ← self;
  let total := sum (Atendimento_valor <$> atendimentos s) in
  let total_repasse := sum (calcular_repasse s <$> atendimentos s) in
  mret (mkRelatorio total total_repasse (total - total_repasse)%float
          (Z.of_nat (length (atendimentos s))) (Z.of_nat (length (medicos s)))).

(** [Financeiro()] on a database file holding [d]: empty lists, the schema
    created if absent, then [carregar_dados]. *)
Definition Financeiro_init (d : Database) : Financeiro :=
  (carregar_dados
     (mkFinanceiro (λ _, mkMedico 0 EmptyString 0%float) 0%nat [] [] d)).1.

(** ** Sessions *)

(** The mutating calls of the store. *)
Inductive chamada :=
  | CadastrarMedico (nome : string) (percentual_repasse : float)
  | AtualizarMedico (medico_id : Z) (nome : option string)
      (percentual_repasse : option float)
  | RemoverMedico (medico_id : Z)
  | RegistrarAtendimento (medico_id : Z) (valor : float).

(** One call on the global [financeiro]; a raised exception ends the request,
    not the process, and the object keeps what the call assigned. *)
Definition executar (s : Financeiro) (c : chamada) : Financeiro :=
  match c with
  | CadastrarMedico n p => (cadastrar_medico n p s).1
  | AtualizarMedico i n p => (atualizar_medico i n p s).1
  | RemoverMedico i => (remover_medico i s).1
  | RegistrarAtendimento i v => (registrar_atendimento i v s).1
  end.

(** The store started on an empty database file. *)
Definition vazio : Financeiro := Financeiro_init (mkDatabase [] []).

Definition sessao (cs : list chamada) : Financeiro := fold_left executar cs vazio.

(** Doctors as the lists show them. *)
Definition medicos_ids (s : Financeiro) : list Z :=
  (λ r, Medico_id (objs s r)) <$> medicos s.

(** The route [novo_atendimento] on a POST whose fields [int] and [float]
    already parsed; what it flashes. *)
Inductive flash :=
  | AtendimentoRegistrado (repasse : float)
  | MedicoInvalido
  | ValorDeveSerMaiorQueZero.

Definition novo_atendimento (medico_id : Z) (valor : float) : Metodo flash :=
  if (0 <? valor)%float then
    atendimento ← registrar_atendimento medico_id valor;
    match atendimento with
    | Some a => s ← self; mret (AtendimentoRegistrado (calcular_repasse s a))
    | None => mret MedicoInvalido
    end
  else mret ValorDeveSerMaiorQueZero.

(** ** Sessions used below *)

(** Two doctors, the first one removed, a third one registered. *)
Definition sessao_colisao : list chamada :=
  [ CadastrarMedico "A" 20; CadastrarMedico "B" 30;
    RemoverMedico 1; CadastrarMedico "C" 40 ].

(** The scenario of the specification: one doctor at 20 %, one appointment
    of 100. *)
Definition sessao_dr_a : list chamada :=
  [ CadastrarMedico "Dr. A" 20; RegistrarAtendimento 1 100 ].

(** The doctor of an appointment removed, then another doctor registered. *)
Definition sessao_reuso : list chamada :=
  [ CadastrarMedico "Dr. A" 20; RegistrarAtendimento 1 100;
    RemoverMedico 1; CadastrarMedico "Dr. Z" 1 ].

(** Persisting, then reloading, as a restart of the process does. *)
Definition salvar_e_carregar (s : Financeiro) : Financeiro :=
  (carregar_dados (salvar_dados s).1).1.

(** What [carregar_dados] makes of a row of [atendimentos]: an appointment
    of the first doctor with the id, or nothing. *)
Definition vincular (s : Financeiro) (row : AtendimentoRow) : option Atendimento :=
  let '(at_id, med_id, valor) := row in
  (λ medico, mkAtendimento at_id medico valor) <$> obter_medico_por_id s med_id.

(** The [medico_id] column of a row of [atendimentos]. *)
Definition atendimento_medico_id (row : AtendimentoRow) : Z := row.1.2.

(** ** Invariants of a session *)

(** References are handed out once: the listed doctors are distinct objects
    and every reference in use is below [next]. *)
Definition bem_formado (s : Financeiro) : Prop :=
  NoDup (medicos s)
  ∧ Forall (λ r, (r < next s)%nat) (medicos s)
  ∧ Forall (λ a, (Atendimento_medico a < next s)%nat) (atendimentos s).

(** Looking the id of the doctor up returns the doctor. *)
Definition localizavel (s : Financeiro) (r : ref) : Prop :=
  obter_medico_por_id s (Medico_id (objs s r)) = Some r.

Definition sem_remocao (c : chamada) : Prop :=
  match c with RemoverMedico _ => False | _ => True end.

(** ** The routes of the doctors *)

(** What the routes [novo_medico] and [editar_medico] flash. *)
Inductive flash_medico :=
  | MedicoCadastrado
  | NomeObrigatorioEPercentual
  | MedicoNaoEncontrado
  | MedicoAtualizado
  | ErroAoAtualizar.


(** [editar_medico] on a POST, fields parsed: the doctor is looked up, then
    both attributes are passed on as they came. *)
Definition editar_medico (id : Z) (nome : string) (perc : float)
    : Metodo flash_medico :=
  s ← self;
  match obter_medico_por_id s id with
  | None => mret MedicoNaoEncontrado
  | Some _ =>
      ok ← atualizar_medico id (Some nome) (Some perc);
      if ok : bool then mret MedicoAtualizado else mret ErroAoAtualizar
  end.

(** ** More invariants *)





(** * Properties *)

Ltac metodo :=
  repeat first
    [ progress unfold mbind, Metodo_bind, mret, Metodo_ret, self, assign in *
    | progress cbn [fst snd objs next medicos atendimentos db
                    set_objs set_medicos set_atendimentos set_db] in * ].

(** ** Lookup by id *)

Section Lookup.
Variable s : Financeiro.

Lemma obter_medico_por_id_Some medico_id r :
  obter_medico_por_id s medico_id = Some r →
  r ∈ medicos s ∧ Medico_id (objs s r) = medico_id.
Proof.
  unfold obter_medico_por_id. intros H. apply find_some in H as [Hin Heq].
  split; [by apply list_elem_of_In | by apply Z.eqb_eq].
Qed.

Lemma obter_medico_por_id_None medico_id :
  obter_medico_por_id s medico_id = None ↔ medico_id ∉ medicos_ids s.
Proof.
  unfold obter_medico_por_id, medicos_ids.
  induction (medicos s) as [|r l IH]; simpl.
  - split; [intros _; apply not_elem_of_nil | done].
  - rewrite not_elem_of_cons. destruct (Z.eqb_spec (Medico_id (objs s r)) medico_id).
    + split; [done | by intros [[] _]].
    + rewrite IH. split; [by intros ?; split | by intros [_ ?]].
Qed.

Lemma obter_medico_por_id_is_Some medico_id :
  medico_id ∈ medicos_ids s → ∃ r, obter_medico_por_id s medico_id = Some r.
Proof.
  intros Hin. destruct (obter_medico_por_id s medico_id) as [r|] eqn:E; [eauto|].
  by apply obter_medico_por_id_None in E.
Qed.

(** The doctor found is the first of its id: nothing before it in the
    list carries the id. *)
Lemma obter_medico_por_id_first medico_id r :
  obter_medico_por_id s medico_id = Some r →
  ∃ l1 l2, medicos s = l1 ++ r :: l2
           ∧ Forall (λ r', Medico_id (objs s r') ≠ medico_id) l1
           ∧ list_remove r (medicos s) = l1 ++ l2.
Proof.
  unfold obter_medico_por_id.
  induction (medicos s) as [|x l IH]; simpl; [done|].
  destruct (Z.eqb_spec (Medico_id (objs s x)) medico_id) as [Heq|Hne].
  - intros [= ->]. exists [], l. rewrite decide_True by done. by repeat split.
  - intros H. destruct (IH H) as (l1 & l2 & -> & Hall & Hrm).
    apply find_some in H as [_ Hid%Z.eqb_eq].
    exists (x :: l1), l2. rewrite decide_False by congruence.
    repeat split; [by constructor | simpl; by rewrite Hrm].
Qed.

(** With pairwise distinct ids the lookup is the inverse of [Medico_id]. *)
Lemma obter_medico_por_id_NoDup r :
  NoDup (medicos_ids s) → r ∈ medicos s →
  obter_medico_por_id s (Medico_id (objs s r)) = Some r.
Proof.
  unfold obter_medico_por_id, medicos_ids.
  induction (medicos s) as [|x l IH]; simpl; [by intros _ ?%elem_of_nil|].
  intros [Hx Hl]%NoDup_cons [->|Hin]%elem_of_cons.
  - by rewrite Z.eqb_refl.
  - destruct (Z.eqb_spec (Medico_id (objs s x)) (Medico_id (objs s r))) as [Heq|_];
      [|by apply IH].
    destruct Hx. rewrite Heq. apply list_elem_of_fmap. eauto.
Qed.
End Lookup.

(** ** Tables *)

Section Table_facts.
Context {R : Type} (key : R → Z) (real : R → float).

Lemma rowid_insert_Permutation (row : R) (t : list R) :
  rowid_insert key row t ≡ₚ row :: t.
Proof.
  induction t as [|x t IH]; simpl; [done|].
  destruct (key row <? key x); [done|]. rewrite IH. apply Permutation_swap.
Qed.

(** A successful run of [INSERT]s stores exactly the rows given; it needs
    pairwise distinct keys and no NaN. *)
Lemma sql_insert_all_Ok (rows : list R) :
  ∀ t t', sql_insert_all key real rows t = Ok t' →
    NoDup (key <$> t) →
    t' ≡ₚ t ++ rows ∧ NoDup (key <$> t')
    ∧ Forall (λ row, is_nan (real row) = false) rows.
Proof.
  induction rows as [|row rows IH]; intros t t'; simpl.
  - intros [= <-] ?. by rewrite app_nil_r.
  - unfold sql_insert. destruct (is_nan (real row)) eqn:Hnan; [done|].
    case_bool_decide as Hin; [done|]. intros H Hnd.
    apply IH in H as (Hp & Hnd' & Hall).
    + split; [|by split; [|constructor]].
      by rewrite Hp, rowid_insert_Permutation, <- Permutation_middle.
    + rewrite rowid_insert_Permutation, fmap_cons. by apply NoDup_cons.
Qed.

Lemma sql_insert_all_succeeds (rows : list R) :
  ∀ t, NoDup (key <$> (t ++ rows)) →
    Forall (λ row, is_nan (real row) = false) rows →
    ∃ t', sql_insert_all key real rows t = Ok t'.
Proof.
  induction rows as [|row rows IH]; intros t Hnd Hall; simpl; [eauto|].
  apply Forall_cons in Hall as [Hnan Hall]. unfold sql_insert. rewrite Hnan.
  rewrite bool_decide_false.
  - apply IH; [|done]. rewrite <- Permutation_middle in Hnd.
    rewrite rowid_insert_Permutation. exact Hnd.
  - rewrite fmap_app, fmap_cons in Hnd. apply NoDup_app in Hnd as (_ & Hnd & _).
    intros Hin. apply (Hnd _ Hin). by left.
Qed.
End Table_facts.

(** ** Writing the snapshot *)

Lemma medicos_ids_medico_row (s : Financeiro) (l : list ref) :
  medico_key <$> (medico_row s <$> l) = (λ r, Medico_id (objs s r)) <$> l.
Proof. by rewrite <- list_fmap_compose. Qed.

Lemma atendimento_key_row (s : Financeiro) (l : list Atendimento) :
  atendimento_key <$> (atendimento_row s <$> l) = Atendimento_id <$> l.
Proof. by rewrite <- list_fmap_compose. Qed.

(** When the snapshot is written the tables hold the rows of memory, the
    ids of the doctors were pairwise distinct, and so were those of the
    appointments. *)
Lemma snapshot_Ok (s : Financeiro) (d : Database) :
  snapshot s = Ok d →
  tbl_medicos d ≡ₚ medico_row s <$> medicos s
  ∧ tbl_atendimentos d ≡ₚ atendimento_row s <$> atendimentos s
  ∧ NoDup (medicos_ids s)
  ∧ NoDup (Atendimento_id <$> atendimentos s).
Proof.
  unfold snapshot.
  destruct (sql_insert_all medico_key _ _ _) as [tm|] eqn:Em; [|done].
  destruct (sql_insert_all atendimento_key _ _ _) as [ta|] eqn:Ea; [|done].
  intros [= <-]. simpl.
  apply sql_insert_all_Ok in Em as (Hm & Hndm & _); [|constructor].
  apply sql_insert_all_Ok in Ea as (Ha & Hnda & _); [|constructor].
  simpl in Hm, Ha. repeat split; [done..| |].
  - unfold medicos_ids. by rewrite <- medicos_ids_medico_row, <- Hm.
  - by rewrite <- (atendimento_key_row s), <- Ha.
Qed.

(** The snapshot is written when ids are pairwise distinct and no number is
    a NaN. *)
Lemma snapshot_succeeds (s : Financeiro) :
  NoDup (medicos_ids s) →
  NoDup (Atendimento_id <$> atendimentos s) →
  Forall (λ r, is_nan (Medico_percentual_repasse (objs s r)) = false) (medicos s) →
  Forall (λ a, is_nan (Atendimento_valor a) = false) (atendimentos s) →
  ∃ d, snapshot s = Ok d.
Proof.
  intros Hm Ha Hnm Hna. unfold snapshot.
  destruct (sql_insert_all_succeeds medico_key medico_real
              (medico_row s <$> medicos s) []) as [tm ->].
  { simpl. by rewrite medicos_ids_medico_row. }
  { by apply Forall_fmap. }
  destruct (sql_insert_all_succeeds atendimento_key atendimento_real
              (atendimento_row s <$> atendimentos s) []) as [ta ->]; [| |eauto].
  { simpl. by rewrite atendimento_key_row. }
  { by apply Forall_fmap. }
Qed.

Lemma salvar_dados_cases s :
  (∃ d, snapshot s = Ok d ∧ salvar_dados s = (set_db d s, Ok tt))
  ∨ (snapshot s = Raise IntegrityError ∧ salvar_dados s = (s, Raise IntegrityError)).
Proof.
  unfold salvar_dados. destruct (snapshot s) as [d|[]]; [left; eauto | by right].
Qed.

Ltac salvar s :=
  destruct (salvar_dados_cases s) as [(? & ? & ->)|[? ->]]; metodo.

(** ** What each method does to memory *)

Lemma atualizar_medico_None (s : Financeiro) (medico_id : Z) nome percentual_repasse :
  obter_medico_por_id s medico_id = None →
  atualizar_medico medico_id nome percentual_repasse s = (s, Ok false).
Proof. intros H. unfold atualizar_medico. metodo. by rewrite H. Qed.

Lemma atualizar_medico_Some (s : Financeiro) (medico_id : Z) nome percentual_repasse r :
  obter_medico_por_id s medico_id = Some r →
  let s' := (atualizar_medico medico_id nome percentual_repasse s).1 in
  let res := (atualizar_medico medico_id nome percentual_repasse s).2 in
  (res = Ok true ∨ res = Raise IntegrityError)
  ∧ next s' = next s ∧ medicos s' = medicos s ∧ atendimentos s' = atendimentos s
  ∧ objs s' r
    = mkMedico (Medico_id (objs s r))
        (default (Medico_nome (objs s r)) nome)
        (default (Medico_percentual_repasse (objs s r)) percentual_repasse)
  ∧ (∀ r', r' ≠ r → objs s' r' = objs s r').
Proof.
  intros H. unfold atualizar_medico. metodo. rewrite H.
  destruct nome as [n|], percentual_repasse as [p|]; metodo;
    match goal with |- context [salvar_dados ?t] => salvar t end;
    (split; [auto|]); do 3 (split; [done|]);
    (split; [rewrite ?fn_lookup_alter; by destruct (objs s r)
            |intros r' Hr'; by rewrite ?fn_lookup_alter_ne]).
Qed.

Lemma remover_medico_None (s : Financeiro) (medico_id : Z) :
  obter_medico_por_id s medico_id = None →
  remover_medico medico_id s = (s, Ok false).
Proof. intros H. unfold remover_medico. metodo. by rewrite H. Qed.

Lemma remover_medico_Some (s : Financeiro) (medico_id : Z) r :
  obter_medico_por_id s medico_id = Some r →
  let s' := (remover_medico medico_id s).1 in
  let res := (remover_medico medico_id s).2 in
  (res = Ok true ∨ res = Raise IntegrityError)
  ∧ objs s' = objs s ∧ next s' = next s
  ∧ medicos s' = list_remove r (medicos s)
  ∧ atendimentos s' = atendimentos s.
Proof.
  intros H. unfold remover_medico. metodo. rewrite H. metodo.
  match goal with |- context [salvar_dados ?t] => salvar t end;
    (split; [auto|]); by repeat split.
Qed.

Lemma registrar_atendimento_None (s : Financeiro) (medico_id : Z) (valor : float) :
  obter_medico_por_id s medico_id = None →
  registrar_atendimento medico_id valor s = (s, Ok None).
Proof. intros H. unfold registrar_atendimento. metodo. by rewrite H. Qed.

Lemma registrar_atendimento_Some (s : Financeiro) (medico_id : Z) (valor : float) r :
  obter_medico_por_id s medico_id = Some r →
  let atendimento :=
    mkAtendimento (Z.of_nat (length (atendimentos s)) + 1) r valor in
  let s' := (registrar_atendimento medico_id valor s).1 in
  let res := (registrar_atendimento medico_id valor s).2 in
  atendimentos s' = atendimentos s ++ [atendimento]
  ∧ medicos s' = medicos s ∧ objs s' = objs s ∧ next s' = next s
  ∧ (res = Ok (Some atendimento) ∨ res = Raise IntegrityError)
  ∧ (res = Raise IntegrityError → db s' = db s).
Proof.
  intros Hr. unfold registrar_atendimento. metodo. rewrite Hr. metodo.
  match goal with |- context [salvar_dados ?t] => salvar t end;
    repeat split; auto; congruence.
Qed.

Lemma cadastrar_medico_effect (s : Financeiro) (nome : string) (p : float) :
  let s' := (cadastrar_medico nome p s).1 in
  let res := (cadastrar_medico nome p s).2 in
  objs s' = <[next s := mkMedico (Z.of_nat (length (medicos s)) + 1) nome p]> (objs s)
  ∧ next s' = S (next s)
  ∧ medicos s' = medicos s ++ [next s]
  ∧ atendimentos s' = atendimentos s
  ∧ (res = Ok (next s) ∧ NoDup (medicos_ids s') ∨ res = Raise IntegrityError).
Proof.
  unfold cadastrar_medico, Medico_new. metodo.
  match goal with |- context [salvar_dados ?t] => salvar t end;
    do 4 (split; [done|]); [left|by right].
  split; [done|].
  match goal with
  | H : snapshot _ = Ok _ |- _ => by apply snapshot_Ok in H as (_ & _ & ? & _)
  end.
Qed.

(** ** [atualizar_medico] *)

(** C8. [atualizar_medico] is a partial update. It returns [False], without
    raising, exactly when no doctor carries the id, and then the state is
    untouched. In every case the two lists are left as they were and every
    object but the targeted one is unchanged; in the targeted one the id is
    kept and each attribute is the value passed, or the old one where [None]
    was passed. *)
Theorem atualizar_medico_partial_update
    (s : Financeiro) (medico_id : Z) (nome : option string)
    (percentual_repasse : option float) :
  let s' := (atualizar_medico medico_id nome percentual_repasse s).1 in
  let res := (atualizar_medico medico_id nome percentual_repasse s).2 in
  (res = Ok false ↔ medico_id ∉ medicos_ids s)
  ∧ (medico_id ∉ medicos_ids s → s' = s)
  ∧ medicos s' = medicos s
  ∧ atendimentos s' = atendimentos s
  ∧ (∀ r, obter_medico_por_id s medico_id ≠ Some r → objs s' r = objs s r)
  ∧ (∀ r, obter_medico_por_id s medico_id = Some r →
       Medico_id (objs s' r) = Medico_id (objs s r)
       ∧ Medico_nome (objs s' r) = default (Medico_nome (objs s r)) nome
       ∧ Medico_percentual_repasse (objs s' r)
         = default (Medico_percentual_repasse (objs s r)) percentual_repasse).
Proof.
  intros s' res. subst s' res. rewrite <- obter_medico_por_id_None.
  destruct (obter_medico_por_id s medico_id) as [r|] eqn:E.
  - destruct (atualizar_medico_Some s medico_id nome percentual_repasse r E)
      as (Hres & _ & Hmed & Hat & Hr & Hother).
    split; [split; [by destruct Hres as [-> | ->]|done]|]. split; [done|].
    split; [done|]. split; [done|]. split.
    + intros r' Hr'. apply Hother. congruence.
    + intros ? [= <-]. by rewrite Hr.
  - rewrite (atualizar_medico_None _ _ _ _ E). by repeat split.
Qed.

(** With nothing to assign the call is [salvar_dados] alone: memory is left
    as it was, and the call returns [True] when the snapshot can be written
    and raises otherwise. *)
Lemma atualizar_medico_noop (s : Financeiro) (medico_id : Z) :
  medico_id ∈ medicos_ids s →
  atualizar_medico medico_id None None s
  = match snapshot s with
    | Ok d => (set_db d s, Ok true)
    | Raise e => (s, Raise e)
    end.
Proof.
  intros [r Hr]%obter_medico_por_id_is_Some.
  unfold atualizar_medico. metodo. rewrite Hr. metodo.
  unfold salvar_dados. by destruct (snapshot s).
Qed.

(** It returns [True] when ids are pairwise distinct and no number is a
    NaN. *)
Lemma atualizar_medico_noop_returns (s : Financeiro) (medico_id : Z) :
  medico_id ∈ medicos_ids s →
  NoDup (medicos_ids s) →
  NoDup (Atendimento_id <$> atendimentos s) →
  Forall (λ r, is_nan (Medico_percentual_repasse (objs s r)) = false) (medicos s) →
  Forall (λ a, is_nan (Atendimento_valor a) = false) (atendimentos s) →
  ∃ d, atualizar_medico medico_id None None s = (set_db d s, Ok true).
Proof.
  intros Hin Hm Ha Hnm Hna. destruct (snapshot_succeeds s Hm Ha Hnm Hna) as [d Hd].
  exists d. by rewrite (atualizar_medico_noop _ _ Hin), Hd.
Qed.

(** C10. An update that assigns nothing is meant to return [True] for every
    registered id. After [sessao_colisao] id 2 is registered, and the call
    raises [IntegrityError] out of [salvar_dados]; memory is as it was. *)
Theorem atualizar_medico_noop_raises :
  let s := sessao sessao_colisao in
  (2 ∈ medicos_ids s)
  ∧ (atualizar_medico 2 None None s).2 = Raise IntegrityError
  ∧ atualizar_medico 2 None None s = (s, Raise IntegrityError).
Proof.
  assert (2 ∈ medicos_ids (sessao sessao_colisao)) as Hin by (vm_compute; by left).
  split; [done|]. rewrite (atualizar_medico_noop _ _ Hin).
  by assert (snapshot (sessao sessao_colisao) = Raise IntegrityError) as ->
    by (by vm_compute).
Qed.

(** ** [calcular_repasse] *)

(** C3. The payout of an appointment is its amount times the hundredth of
    the percentage its doctor carries now. When [atualizar_medico] reaches
    the doctor of an appointment and assigns a percentage, the appointment
    is still in the list, as it was, and its payout is the amount times the
    hundredth of the new percentage. *)
Theorem calcular_repasse_live
    (s : Financeiro) (a : Atendimento) (medico_id : Z) (nome : option string)
    (p : float) :
  a ∈ atendimentos s →
  obter_medico_por_id s medico_id = Some (Atendimento_medico a) →
  let s' := (atualizar_medico medico_id nome (Some p) s).1 in
  calcular_repasse s a
  = (Atendimento_valor a
     * (Medico_percentual_repasse (objs s (Atendimento_medico a)) / 100))%float
  ∧ atendimentos s' = atendimentos s
  ∧ a ∈ atendimentos s'
  ∧ calcular_repasse s' a = (Atendimento_valor a * (p / 100))%float.
Proof.
  intros Hin Hobter s'.
  destruct (atualizar_medico_Some s medico_id nome (Some p) _ Hobter)
    as (_ & _ & _ & Hat & Hobj & _). fold s' in Hat, Hobj.
  split; [done|]. split; [done|]. split; [by rewrite Hat|].
  unfold calcular_repasse. by rewrite Hobj.
Qed.

(** The division comes first, as the source brackets it; dividing the
    product instead can round differently. *)
Remark calcular_repasse_brackets :
  (3 * (10 / 100))%float = 0x1.3333333333334p-2%float
  ∧ (3 * 10 / 100)%float = 0x1.3333333333333p-2%float
  ∧ calcular_repasse (sessao [CadastrarMedico "X" 10]) (mkAtendimento 1 0%nat 3)
    = 0x1.3333333333334p-2%float.
Proof. by vm_compute. Qed.

(** The scenario of the specification: 20 % raised to 50 %. *)
Lemma calcular_repasse_live_witness :
  let s := sessao sessao_dr_a in
  let a := mkAtendimento 1 0%nat 100 in
  let s' := (atualizar_medico 1 None (Some 50%float) s).1 in
  calcular_repasse s a = 20%float
  ∧ atendimentos s' = [a]
  ∧ calcular_repasse s' a = 50%float.
Proof.
  cbv zeta.
  destruct (calcular_repasse_live (sessao sessao_dr_a) (mkAtendimento 1 0%nat 100)
              1 None 50%float) as (H1 & H2 & _ & H4).
  - vm_compute. by left.
  - reflexivity.
  - split; [rewrite H1; reflexivity|]. split; [rewrite H2; reflexivity|].
    rewrite H4. reflexivity.
Defined.

(** ** [registrar_atendimento] *)

(** C5. When the id resolves to no doctor, [registrar_atendimento] returns
    [None] and the whole state, the appointment list included, is what it
    was. When the id resolves, the appointment list grows at its end by one
    appointment, whose id is the length the list had plus one, which holds
    the doctor found and the amount given; that appointment is returned,
    unless writing the snapshot raises. *)
Theorem registrar_atendimento_resolve
    (s : Financeiro) (medico_id : Z) (valor : float) :
  match obter_medico_por_id s medico_id with
  | None =>
      (medico_id ∉ medicos_ids s)
      ∧ registrar_atendimento medico_id valor s = (s, Ok None)
  | Some medico =>
      (medico ∈ medicos s) ∧ Medico_id (objs s medico) = medico_id
      ∧ atendimentos (registrar_atendimento medico_id valor s).1
        = atendimentos s
          ++ [mkAtendimento (Z.of_nat (length (atendimentos s)) + 1) medico valor]
      ∧ ((registrar_atendimento medico_id valor s).2
         = Ok (Some (mkAtendimento (Z.of_nat (length (atendimentos s)) + 1)
                       medico valor))
         ∨ (registrar_atendimento medico_id valor s).2 = Raise IntegrityError)
  end.
Proof.
  destruct (obter_medico_por_id s medico_id) as [r|] eqn:E.
  - destruct (obter_medico_por_id_Some _ _ _ E) as [? ?].
    destruct (registrar_atendimento_Some s medico_id valor r E)
      as (? & _ & _ & _ & ? & _).
    by repeat split.
  - split; [by apply obter_medico_por_id_None|].
    by apply registrar_atendimento_None.
Qed.

(** ** Where the amount is checked *)

(** C6, as stated, fails: with doctor 1 registered, [registrar_atendimento]
    called with the amount -5 returns the appointment and the list holds
    it. *)
Lemma registrar_atendimento_accepts_nonpositive :
  let s := sessao [CadastrarMedico "Dr. A" 20] in
  let valor := (-5)%float in
  obter_medico_por_id s 1 = Some 0%nat
  ∧ (valor <=? 0)%float = true
  ∧ (registrar_atendimento 1 valor s).2 = Ok (Some (mkAtendimento 1 0%nat valor))
  ∧ atendimentos s = []
  ∧ atendimentos (registrar_atendimento 1 valor s).1 = [mkAtendimento 1 0%nat valor].
Proof. by vm_compute. Qed.

(** C6, amended. The amount is checked by the route, not by the store. For
    every amount that is not greater than zero, [novo_atendimento] returns
    the rejection, raises nothing and leaves the whole state as it was,
    whatever the doctor id; [registrar_atendimento] itself, called on an id
    that resolves, appends the appointment with the amount as given. *)
Theorem novo_atendimento_guards_amount
    (s : Financeiro) (medico_id : Z) (valor : float) :
  (0 <? valor)%float = false →
  novo_atendimento medico_id valor s = (s, Ok ValorDeveSerMaiorQueZero)
  ∧ ∀ medico, obter_medico_por_id s medico_id = Some medico →
      atendimentos (registrar_atendimento medico_id valor s).1
      = atendimentos s
        ++ [mkAtendimento (Z.of_nat (length (atendimentos s)) + 1) medico valor].
Proof.
  intros Hle. split.
  - unfold novo_atendimento. by rewrite Hle.
  - intros r Hr. by destruct (registrar_atendimento_Some s medico_id valor r Hr).
Qed.

(** The route and the store on the amount -5. *)
Lemma novo_atendimento_guards_amount_witness :
  let s := sessao [CadastrarMedico "Dr. A" 20] in
  (0 <? -5)%float = false
  ∧ novo_atendimento 1 (-5) s = (s, Ok ValorDeveSerMaiorQueZero)
  ∧ atendimentos (registrar_atendimento 1 (-5) s).1 = [mkAtendimento 1 0%nat (-5)].
Proof.
  cbv zeta. split; [reflexivity|].
  destruct (novo_atendimento_guards_amount
              (sessao [CadastrarMedico "Dr. A" 20]) 1 (-5) eq_refl) as [H1 H2].
  split; [exact H1|]. exact (H2 0%nat eq_refl).
Defined.

(** ** [relatorio_financeiro] *)

Lemma sum_nil : sum [] = 0%float.
Proof. reflexivity. Qed.

Lemma relatorio_financeiro_unfold (s : Financeiro) :
  relatorio_financeiro s
  = (s, Ok (mkRelatorio
              (sum (Atendimento_valor <$> atendimentos s))
              (sum (calcular_repasse s <$> atendimentos s))
              (sum (Atendimento_valor <$> atendimentos s)
               - sum (calcular_repasse s <$> atendimentos s))%float
              (Z.of_nat (length (atendimentos s)))
              (Z.of_nat (length (medicos s))))).
Proof. reflexivity. Qed.

(** C7. [relatorio_financeiro] returns, raises nothing and leaves the state
    as it was. The report holds the sum of the amounts, the sum of the
    payouts, their difference, and the lengths of the two lists; with no
    appointment the difference is zero. *)
Theorem relatorio_financeiro_aggregates (s : Financeiro) :
  ∃ rep : Relatorio,
    relatorio_financeiro s = (s, Ok rep)
    ∧ faturamento_total rep = sum (Atendimento_valor <$> atendimentos s)
    ∧ total_repasse rep = sum (calcular_repasse s <$> atendimentos s)
    ∧ lucro_liquido rep = (faturamento_total rep - total_repasse rep)%float
    ∧ qtd_atendimentos rep = Z.of_nat (length (atendimentos s))
    ∧ qtd_medicos rep = Z.of_nat (length (medicos s))
    ∧ (atendimentos s = [] → lucro_liquido rep = 0%float).
Proof.
  eexists. split; [apply relatorio_financeiro_unfold|].
  cbn [faturamento_total total_repasse lucro_liquido qtd_atendimentos qtd_medicos].
  repeat split. by intros ->.
Qed.

(** ** [remover_medico] *)

(** C9. [remover_medico] returns [False] exactly when no doctor carries the
    id, and then the state is what it was. When a doctor carries the id, the
    first such doctor leaves the list and nothing else does, and the call
    returns [True] unless writing the snapshot raises. In every case the
    objects and the appointment list are untouched, so the appointments of
    the removed doctor are still listed and the report still counts them and
    adds their amounts and payouts. *)
Theorem remover_medico_only_the_doctor (s : Financeiro) (medico_id : Z) :
  let s' := (remover_medico medico_id s).1 in
  let res := (remover_medico medico_id s).2 in
  (res = Ok false ↔ medico_id ∉ medicos_ids s)
  ∧ (medico_id ∉ medicos_ids s → s' = s)
  ∧ (∀ r, obter_medico_por_id s medico_id = Some r →
       (res = Ok true ∨ res = Raise IntegrityError)
       ∧ ∃ l1 l2, medicos s = l1 ++ r :: l2 ∧ medicos s' = l1 ++ l2
                  ∧ Forall (λ r', Medico_id (objs s r') ≠ medico_id) l1)
  ∧ objs s' = objs s
  ∧ listar_atendimentos s' = listar_atendimentos s
  ∧ ∃ rep rep',
      relatorio_financeiro s = (s, Ok rep)
      ∧ relatorio_financeiro s' = (s', Ok rep')
      ∧ faturamento_total rep' = faturamento_total rep
      ∧ total_repasse rep' = total_repasse rep
      ∧ lucro_liquido rep' = lucro_liquido rep
      ∧ qtd_atendimentos rep' = qtd_atendimentos rep.
Proof.
  intros s' res.
  assert (objs s' = objs s ∧ atendimentos s' = atendimentos s
          ∧ (res = Ok false ↔ medico_id ∉ medicos_ids s)
          ∧ (medico_id ∉ medicos_ids s → s' = s)
          ∧ (∀ r, obter_medico_por_id s medico_id = Some r →
               (res = Ok true ∨ res = Raise IntegrityError)
               ∧ medicos s' = list_remove r (medicos s)))
    as (Hobjs & Hat & Hres & Hnone & Hsome).
  { subst s' res. rewrite <- obter_medico_por_id_None.
    destruct (obter_medico_por_id s medico_id) as [r|] eqn:E.
    - destruct (remover_medico_Some s medico_id r E) as (Hres & ? & _ & ? & ?).
      do 2 (split; [done|]). split; [split; [by destruct Hres as [-> | ->]|done]|].
      split; [done|]. by intros ? [= <-].
    - rewrite (remover_medico_None _ _ E). by repeat split. }
  split; [done|]. split; [done|]. split.
  { intros r Hr. destruct (Hsome r Hr) as [? Hrm]. split; [done|].
    destruct (obter_medico_por_id_first s medico_id r Hr) as (l1 & l2 & ? & ? & Hl).
    exists l1, l2. by rewrite Hrm, Hl. }
  split; [done|]. split; [done|].
  do 2 eexists. do 2 (split; [apply relatorio_financeiro_unfold|]).
  cbn [faturamento_total total_repasse lucro_liquido qtd_atendimentos].
  unfold calcular_repasse. by rewrite Hobjs, Hat.
Qed.

(** ** Reloading *)

Lemma for_each_cons {A : Type} (body : A → Metodo unit) (x : A) (l : list A) s :
  for_each body (x :: l) s
  = match body x s with
    | (s', Ok _) => for_each body l s'
    | (s', Raise e) => (s', Raise e)
    end.
Proof. reflexivity. Qed.

Lemma carregar_medico_unfold (id : Z) (nome : string) (p : float) (s : Financeiro) :
  carregar_medico (id, nome, p) s
  = (mkFinanceiro (<[next s := mkMedico id nome p]> (objs s)) (S (next s))
       (medicos s ++ [next s]) (atendimentos s) (db s),
     Ok tt).
Proof. reflexivity. Qed.

Lemma carregar_atendimento_unfold (at_id med_id : Z) (valor : float) (s : Financeiro) :
  carregar_atendimento (at_id, med_id, valor) s
  = (match obter_medico_por_id s med_id with
     | Some medico =>
         set_atendimentos (atendimentos s ++ [mkAtendimento at_id medico valor]) s
     | None => s
     end, Ok tt).
Proof.
  unfold carregar_atendimento. metodo. by destruct (obter_medico_por_id s med_id).
Qed.

(** The first loop of [carregar_dados]: one new object per row, in the
    order of the rows; the objects that were there are untouched. *)
Lemma for_each_carregar_medico (rows : list MedicoRow) :
  ∀ s,
    (for_each carregar_medico rows s).2 = Ok tt
    ∧ next (for_each carregar_medico rows s).1 = (next s + length rows)%nat
    ∧ medicos (for_each carregar_medico rows s).1
      = medicos s ++ seq (next s) (length rows)
    ∧ atendimentos (for_each carregar_medico rows s).1 = atendimentos s
    ∧ db (for_each carregar_medico rows s).1 = db s
    ∧ (∀ r, (r < next s)%nat →
         objs (for_each carregar_medico rows s).1 r = objs s r)
    ∧ medico_row (for_each carregar_medico rows s).1 <$> seq (next s) (length rows)
      = rows.
Proof.
  induction rows as [|[[i n] p] rows IH]; intros s.
  - simpl. by rewrite Nat.add_0_r, app_nil_r.
  - rewrite for_each_cons, carregar_medico_unfold.
    match goal with |- context [for_each _ _ ?t] => set (s1 := t) end.
    destruct (IH s1) as (Hres & Hnext & Hmed & Hat & Hdb & Hobjs & Hrows).
    subst s1. metodo.
    split; [done|]. split; [rewrite Hnext; simpl; lia|].
    split; [by rewrite Hmed, <- app_assoc|]. split; [done|]. split; [done|].
    split.
    + intros r Hr. rewrite Hobjs by lia. apply fn_lookup_insert_ne. lia.
    + cbn [length seq fmap list_fmap]. f_equal; [|exact Hrows].
      unfold medico_row. rewrite Hobjs by lia. by rewrite fn_lookup_insert.
Qed.

Lemma obter_medico_por_id_set_atendimentos (s : Financeiro) l medico_id :
  obter_medico_por_id (set_atendimentos l s) medico_id
  = obter_medico_por_id s medico_id.
Proof. reflexivity. Qed.

(** The second loop of [carregar_dados]: doctors and objects are left alone
    and the rows that link, linked, go to the end of the list. *)
Lemma for_each_carregar_atendimento (rows : list AtendimentoRow) :
  ∀ s,
    (for_each carregar_atendimento rows s).2 = Ok tt
    ∧ objs (for_each carregar_atendimento rows s).1 = objs s
    ∧ next (for_each carregar_atendimento rows s).1 = next s
    ∧ medicos (for_each carregar_atendimento rows s).1 = medicos s
    ∧ db (for_each carregar_atendimento rows s).1 = db s
    ∧ atendimentos (for_each carregar_atendimento rows s).1
      = atendimentos s ++ omap (vincular s) rows.
Proof.
  induction rows as [|[[i m] v] rows IH]; intros s.
  - simpl. by rewrite app_nil_r.
  - rewrite for_each_cons, carregar_atendimento_unfold.
    cbn [omap list_omap]. unfold vincular at 1.
    destruct (obter_medico_por_id s m) as [r|] eqn:E.
    + match goal with |- context [for_each _ _ ?t] => set (s1 := t) end.
      destruct (IH s1) as (Hres & Hobjs & Hnext & Hmed & Hdb & Hat).
      subst s1. metodo. do 5 (split; [done|]).
      rewrite Hat. cbn [fmap option_fmap option_map]. by rewrite <- app_assoc.
    + apply IH.
Qed.

Lemma vincular_unfold (s : Financeiro) (at_id med_id : Z) (valor : float) :
  vincular s (at_id, med_id, valor)
  = (λ medico, mkAtendimento at_id medico valor) <$> obter_medico_por_id s med_id.
Proof. reflexivity. Qed.

(** The rows that link are those whose [medico_id] is the id of a doctor. *)
Lemma atendimento_row_vincular (s : Financeiro) (rows : list AtendimentoRow) :
  atendimento_row s <$> omap (vincular s) rows
  = filter (λ row, atendimento_medico_id row ∈ medicos_ids s) rows
  ∧ Forall (λ a, Atendimento_medico a ∈ medicos s) (omap (vincular s) rows).
Proof.
  induction rows as [|[[i m] v] rows [IH1 IH2]]; [done|].
  cbn [omap list_omap]. rewrite vincular_unfold.
  destruct (obter_medico_por_id s m) as [r|] eqn:E; cbn [fmap option_fmap option_map].
  - destruct (obter_medico_por_id_Some _ _ _ E) as [Hin Hid].
    rewrite filter_cons_True.
    + split; [|by constructor]. rewrite fmap_cons, IH1.
      unfold atendimento_row at 1. simpl. by rewrite Hid.
    + unfold atendimento_medico_id. simpl. rewrite <- Hid.
      unfold medicos_ids. apply list_elem_of_fmap. eauto.
  - rewrite filter_cons_False; [done|]. by apply obter_medico_por_id_None.
Qed.

(** [carregar_dados] returns; the doctors are the rows of [medicos], in scan
    order, as new objects; the appointments are the rows of [atendimentos]
    whose [medico_id] is the id of a row of [medicos], each holding a doctor
    of the new list. *)
Lemma carregar_dados_spec (s : Financeiro) :
  (carregar_dados s).2 = Ok tt
  ∧ db (carregar_dados s).1 = db s
  ∧ medicos (carregar_dados s).1 = seq (next s) (length (tbl_medicos (db s)))
  ∧ medico_row (carregar_dados s).1 <$> medicos (carregar_dados s).1
    = tbl_medicos (db s)
  ∧ atendimento_row (carregar_dados s).1 <$> atendimentos (carregar_dados s).1
    = filter (λ row, atendimento_medico_id row ∈ medico_key <$> tbl_medicos (db s))
        (tbl_atendimentos (db s))
  ∧ Forall (λ a, Atendimento_medico a ∈ medicos (carregar_dados s).1)
      (atendimentos (carregar_dados s).1).
Proof.
  unfold carregar_dados. metodo.
  match goal with |- context [for_each carregar_medico ?rows ?t] =>
    destruct (for_each_carregar_medico rows t)
      as (Hres & Hnext & Hmed & Hat & Hdb & Hobjs & Hrows);
    destruct (for_each carregar_medico rows t) as [s1 res1]
  end.
  metodo. subst res1.
  match goal with |- context [for_each carregar_atendimento ?rows ?t] =>
    destruct (for_each_carregar_atendimento rows t)
      as (Hres' & Hobjs' & Hnext' & Hmed' & Hdb' & Hat');
    destruct (atendimento_row_vincular t rows) as [Hrow Hlink];
    destruct (for_each carregar_atendimento rows t) as [s2 res2]
  end.
  metodo. subst res2. rewrite Hat in Hat'. simpl in Hat', Hmed.
  assert (medico_row s2 <$> medicos s2 = tbl_medicos (db s)) as Hm.
  { rewrite Hmed', Hmed. unfold medico_row. rewrite Hobjs'. exact Hrows. }
  split; [done|]. split; [congruence|]. split; [congruence|]. split; [done|].
  rewrite Hat', Hmed'. split; [|done].
  unfold atendimento_row. rewrite Hobjs'. fold (atendimento_row s1).
  rewrite Hrow. unfold medicos_ids.
  by rewrite <- medicos_ids_medico_row, <- Hmed', <- Hm, medicos_ids_medico_row,
    Hmed', medicos_ids_medico_row, Hobjs'.
Qed.

(** ** Persisting, then reloading *)



(** C4. Persisting and reloading is meant to give back the doctors, and the
    appointments less those whose doctor was removed. After [sessao_colisao]
    the snapshot is refused and the reload brings back one doctor out of
    two. After [sessao_reuso] the appointment of the removed Dr. A is not
    dropped: the reload hands it to Dr. Z, who was given the id of Dr. A. *)
Theorem salvar_e_carregar_loses_and_relinks :
  (let s := sessao sessao_colisao in
   (salvar_dados s).2 = Raise IntegrityError
   ∧ medico_row s <$> medicos s
     = [(2, "B"%string, 30%float); (2, "C"%string, 40%float)]
   ∧ medico_row (salvar_e_carregar s) <$> medicos (salvar_e_carregar s)
     = [(2, "B"%string, 30%float)])
  ∧ (let s := sessao sessao_reuso in
     let s' := salvar_e_carregar s in
     (salvar_dados s).2 = Ok tt
     ∧ Medico_nome <$> (objs s <$> medicos s) = ["Dr. Z"%string]
     ∧ atendimentos s = [mkAtendimento 1 0%nat 100]
     ∧ (0%nat ∉ medicos s)
     ∧ Medico_nome (objs s 0%nat) = "Dr. A"%string
     ∧ calcular_repasse s <$> atendimentos s = [20%float]
     ∧ Atendimento_id <$> atendimentos s' = [1]
     ∧ (λ a, Medico_nome (objs s' (Atendimento_medico a))) <$> atendimentos s'
       = ["Dr. Z"%string]
     ∧ calcular_repasse s' <$> atendimentos s' = [1%float]).
Proof.
  split.
  - by vm_compute.
  - cbv zeta. split; [by vm_compute|]. split; [by vm_compute|].
    split; [by vm_compute|]. split.
    { assert (medicos (sessao sessao_reuso) = [1%nat]) as -> by (by vm_compute).
      by intros [=]%list_elem_of_singleton. }
    by vm_compute.
Qed.

(** ** References stay well formed *)

Lemma list_remove_sublist (x : ref) (l : list ref) : list_remove x l `sublist_of` l.
Proof.
  induction l as [|y l IH]; simpl; [done|].
  destruct (decide (y = x)); [by apply sublist_cons | by apply sublist_skip].
Qed.

Lemma list_remove_NoDup (x y : ref) (l : list ref) :
  NoDup l → y ∈ list_remove x l → y ≠ x ∧ y ∈ l.
Proof.
  induction l as [|z l IH]; simpl; [by intros _ ?%elem_of_nil|].
  intros [Hz Hl]%NoDup_cons. destruct (decide (z = x)) as [->|Hne].
  - intros Hy. split; [by intros ->|by right].
  - intros [->|Hy]%elem_of_cons; [split; [done|by left]|].
    destruct (IH Hl Hy). split; [done|by right].
Qed.

Lemma bem_formado_vazio : bem_formado vazio.
Proof. repeat split; constructor. Qed.

Lemma bem_formado_executar (s : Financeiro) (c : chamada) :
  bem_formado s → bem_formado (executar s c).
Proof.
  intros (Hnd & Hmed & Hat). unfold bem_formado.
  destruct c as [n p|i n p|i|i v]; cbn [executar].
  - destruct (cadastrar_medico_effect s n p) as (_ & -> & -> & -> & _).
    split; [|split].
    + apply NoDup_app. split; [done|]. split; [|apply NoDup_singleton].
      intros r Hr ->%list_elem_of_singleton.
      rewrite Forall_forall in Hmed. specialize (Hmed _ Hr). lia.
    + apply Forall_app. split; [|by repeat constructor].
      eapply Forall_impl; [exact Hmed|]. simpl. lia.
    + eapply Forall_impl; [exact Hat|]. simpl. lia.
  - destruct (obter_medico_por_id s i) as [r|] eqn:E.
    + by destruct (atualizar_medico_Some s i n p r E) as (_ & -> & -> & -> & _).
    + by rewrite (atualizar_medico_None _ _ _ _ E).
  - destruct (obter_medico_por_id s i) as [r|] eqn:E.
    + destruct (remover_medico_Some s i r E) as (_ & _ & -> & -> & ->).
      split; [|split; [|done]].
      * eapply sublist_NoDup; [exact Hnd|apply list_remove_sublist].
      * rewrite Forall_forall in Hmed |- *. intros y Hy. apply Hmed.
        by destruct (list_remove_NoDup _ _ _ Hnd Hy).
    + by rewrite (remover_medico_None _ _ E).
  - destruct (obter_medico_por_id s i) as [r|] eqn:E.
    + destruct (registrar_atendimento_Some s i v r E) as (-> & -> & _ & -> & _).
      split; [done|]. split; [done|]. apply Forall_app. split; [done|].
      repeat constructor. simpl. rewrite Forall_forall in Hmed. apply Hmed.
      by destruct (obter_medico_por_id_Some _ _ _ E).
    + by rewrite (registrar_atendimento_None _ _ _ E).
Qed.

Lemma fold_left_executar_snoc (cs : list chamada) (c : chamada) (s : Financeiro) :
  fold_left executar (cs ++ [c]) s = executar (fold_left executar cs s) c.
Proof. by rewrite fold_left_app. Qed.

Lemma bem_formado_sessao (cs : list chamada) : bem_formado (sessao cs).
Proof.
  unfold sessao. induction cs as [|c cs IH] using rev_ind.
  - apply bem_formado_vazio.
  - rewrite fold_left_executar_snoc. by apply bem_formado_executar.
Qed.

(** ** Ids along a session *)

Lemma medicos_ids_ext (s s' : Financeiro) :
  medicos s' = medicos s →
  (∀ r, r ∈ medicos s → Medico_id (objs s' r) = Medico_id (objs s r)) →
  medicos_ids s' = medicos_ids s.
Proof.
  unfold medicos_ids. intros -> H. apply list_fmap_ext. intros k r Hr.
  apply H. by eapply list_elem_of_lookup_2.
Qed.

(** An id, once given, stays: no method assigns [Medico.id]. *)
Lemma executar_frame (s : Financeiro) (c : chamada) (r : ref) :
  bem_formado s → (r < next s)%nat →
  (next s ≤ next (executar s c))%nat
  ∧ Medico_id (objs (executar s c) r) = Medico_id (objs s r)
  ∧ (r ∈ medicos (executar s c) → r ∈ medicos s).
Proof.
  intros (Hnd & Hmed & Hat) Hr. destruct c as [n p|i n p|i|i v]; cbn [executar].
  - destruct (cadastrar_medico_effect s n p) as (-> & -> & -> & _).
    split; [lia|]. split; [by rewrite fn_lookup_insert_ne by lia|].
    intros [?| ->%list_elem_of_singleton]%elem_of_app; [done|lia].
  - destruct (obter_medico_por_id s i) as [r0|] eqn:E.
    + destruct (atualizar_medico_Some s i n p r0 E) as (_ & -> & -> & _ & Hr0 & Ho).
      split; [done|]. split; [|done].
      destruct (decide (r = r0)) as [->|Hne]; [by rewrite Hr0|by rewrite Ho].
    + by rewrite (atualizar_medico_None _ _ _ _ E).
  - destruct (obter_medico_por_id s i) as [r0|] eqn:E.
    + destruct (remover_medico_Some s i r0 E) as (_ & -> & -> & -> & _).
      split; [done|]. split; [done|]. intros Hin.
      by destruct (list_remove_NoDup _ _ _ Hnd Hin).
    + by rewrite (remover_medico_None _ _ E).
  - destruct (obter_medico_por_id s i) as [r0|] eqn:E.
    + by destruct (registrar_atendimento_Some s i v r0 E) as (_ & -> & -> & -> & _).
    + by rewrite (registrar_atendimento_None _ _ _ E).
Qed.

Lemma medicos_ids_cadastrar_medico (s : Financeiro) (nome : string) (p : float) :
  bem_formado s →
  medicos_ids (cadastrar_medico nome p s).1
  = medicos_ids s ++ [Z.of_nat (length (medicos s)) + 1].
Proof.
  intros (_ & Hmed & _). unfold medicos_ids.
  destruct (cadastrar_medico_effect s nome p) as (-> & _ & -> & _).
  rewrite fmap_app. cbn [fmap list_fmap]. rewrite fn_lookup_insert. f_equal.
  apply list_fmap_ext. intros k r Hr%list_elem_of_lookup_2.
  rewrite Forall_forall in Hmed. specialize (Hmed _ Hr).
  by rewrite fn_lookup_insert_ne by lia.
Qed.

(** X2. Without a removal the ids in memory are 1, 2, ..., in list order. *)
Theorem medicos_ids_sequential (cs : list chamada) :
  Forall sem_remocao cs →
  medicos_ids (sessao cs) = Z.of_nat <$> seq 1 (length (medicos (sessao cs)))
  ∧ NoDup (medicos_ids (sessao cs)).
Proof.
  intros Hcs.
  assert (medicos_ids (sessao cs)
          = Z.of_nat <$> seq 1 (length (medicos (sessao cs)))) as H.
  { unfold sessao. induction cs as [|c cs IH] using rev_ind; [done|].
    apply Forall_app in Hcs as [Hcs [Hc _]%Forall_cons].
    specialize (IH Hcs). rewrite fold_left_executar_snoc.
    pose proof (bem_formado_sessao cs) as Hwf. unfold sessao in Hwf.
    set (s := fold_left executar cs vazio) in *.
    destruct c as [n p|i n p|i|i v]; cbn [executar]; [| |done|].
    - rewrite (medicos_ids_cadastrar_medico s n p Hwf), IH.
      destruct (cadastrar_medico_effect s n p) as (_ & _ & -> & _).
      rewrite length_app. cbn [length]. rewrite Nat.add_1_r, seq_S, fmap_app.
      cbn [fmap list_fmap]. do 2 f_equal. lia.
    - destruct (obter_medico_por_id s i) as [r0|] eqn:E;
        [|by rewrite (atualizar_medico_None _ _ _ _ E)].
      destruct (atualizar_medico_Some s i n p r0 E) as (_ & _ & Hm & _ & Hr0 & Ho).
      rewrite Hm, <- IH. apply medicos_ids_ext; [done|]. intros r _.
      destruct (decide (r = r0)) as [->|Hne]; [by rewrite Hr0|by rewrite Ho].
    - destruct (obter_medico_por_id s i) as [r0|] eqn:E;
        [|by rewrite (registrar_atendimento_None _ _ _ E)].
      destruct (registrar_atendimento_Some s i v r0 E) as (_ & Hm & Ho & _).
      rewrite Hm, <- IH. apply medicos_ids_ext; [done|]. intros r _. by rewrite Ho. }
  split; [done|]. rewrite H. apply NoDup_fmap_2; [apply _|apply NoDup_seq].
Qed.

(** [sessao_dr_a] removes nothing. *)
Lemma medicos_ids_sequential_witness :
  medicos_ids (sessao sessao_dr_a) = [1].
Proof.
  destruct (medicos_ids_sequential sessao_dr_a) as [H _].
  - repeat constructor.
  - rewrite H. reflexivity.
Defined.

(** C1. Ids are meant to be pairwise distinct in every reachable state. The
    session [sessao_colisao] reaches a state whose list holds two doctors
    with id 2: after the removal the third registration counts one doctor
    and assigns 1 + 1 while doctor 2 is still there. *)
Theorem medicos_ids_collide :
  medicos_ids (sessao sessao_colisao) = [2; 2]
  ∧ Medico_nome <$> (objs (sessao sessao_colisao) <$> medicos (sessao sessao_colisao))
    = ["B"%string; "C"%string]
  ∧ ¬ NoDup (medicos_ids (sessao sessao_colisao)).
Proof.
  assert (medicos_ids (sessao sessao_colisao) = [2; 2]) as H by (by vm_compute).
  split; [done|]. split; [by vm_compute|].
  rewrite H. intros [Hin _]%NoDup_cons. apply Hin. by left.
Qed.

(** ** Looking up a doctor whose registration returned *)

Lemma find_app_Some {A : Type} (f : A → bool) (l l' : list A) (x : A) :
  find f l = Some x → find f (l ++ l') = Some x.
Proof. induction l as [|y l IH]; simpl; [done|]. by destruct (f y). Qed.

Lemma find_ext_Forall {A : Type} (f g : A → bool) (l : list A) :
  Forall (λ x, f x = g x) l → find f l = find g l.
Proof. induction 1 as [|x l Hx _ IH]; simpl; [done|]. by rewrite Hx, IH. Qed.

Lemma find_list_remove (f : ref → bool) (l : list ref) (r r0 : ref) :
  find f l = Some r → r ≠ r0 → find f (list_remove r0 l) = Some r.
Proof.
  intros Hf Hne. induction l as [|x l IH]; simpl in *; [done|].
  destruct (decide (x = r0)) as [->|Hx].
  - destruct (f r0); [congruence|done].
  - simpl. destruct (f x); [done|by apply IH].
Qed.

(** A doctor that its id looks up keeps being looked up by its id for as
    long as it is listed, whatever is called. *)
Lemma localizavel_executar (s : Financeiro) (c : chamada) (r : ref) :
  bem_formado s → r ∈ medicos s → localizavel s r →
  r ∈ medicos (executar s c) → localizavel (executar s c) r.
Proof.
  intros (Hnd & Hmed & Hat) Hin Hloc. unfold localizavel, obter_medico_por_id in *.
  pose proof Hmed as Hlt. rewrite Forall_forall in Hlt.
  destruct c as [n p|i n p|i|i v]; cbn [executar].
  - destruct (cadastrar_medico_effect s n p) as (-> & _ & -> & _). intros _.
    rewrite fn_lookup_insert_ne by (specialize (Hlt _ Hin); lia).
    apply find_app_Some. rewrite <- Hloc. apply find_ext_Forall.
    apply Forall_forall. intros r' Hr'.
    by rewrite fn_lookup_insert_ne by (specialize (Hlt _ Hr'); lia).
  - destruct (obter_medico_por_id s i) as [r0|] eqn:E;
      [|by rewrite (atualizar_medico_None _ _ _ _ E)].
    destruct (atualizar_medico_Some s i n p r0 E) as (_ & _ & -> & _ & Hr0 & Ho).
    intros _. rewrite <- Hloc. 
    assert (∀ r', Medico_id (objs (atualizar_medico i n p s).1 r')
                  = Medico_id (objs s r')) as Hid.
    { intros r'. destruct (decide (r' = r0)) as [->|?]; [by rewrite Hr0|by rewrite Ho]. }
    rewrite Hid. apply find_ext_Forall, Forall_forall. intros r' _. by rewrite Hid.
  - destruct (obter_medico_por_id s i) as [r0|] eqn:E;
      [|by rewrite (remover_medico_None _ _ E)].
    destruct (remover_medico_Some s i r0 E) as (_ & -> & _ & -> & _).
    intros [Hne _]%list_remove_NoDup; [|done]. by apply find_list_remove.
  - destruct (obter_medico_por_id s i) as [r0|] eqn:E;
      [|by rewrite (registrar_atendimento_None _ _ _ E)].
    by destruct (registrar_atendimento_Some s i v r0 E) as (_ & -> & -> & _).
Qed.

(** X3. The doctor that [cadastrar_medico] returns is looked up by its id, in
    the state the call leaves and after any further calls, until it is
    removed; its id does not change. A doctor left in the list by a call
    that raised is not covered. *)
Theorem obter_medico_por_id_registered
    (s : Financeiro) (nome : string) (p : float) (r : ref) (cs : list chamada) :
  bem_formado s →
  (cadastrar_medico nome p s).2 = Ok r →
  let s' := fold_left executar cs (cadastrar_medico nome p s).1 in
  Medico_id (objs s' r) = Z.of_nat (length (medicos s)) + 1
  ∧ (r ∈ medicos s' → obter_medico_por_id s' (Medico_id (objs s' r)) = Some r).
Proof.
  intros Hwf Hres s'.
  pose proof (bem_formado_executar s (CadastrarMedico nome p) Hwf) as Hwf1.
  cbn [executar] in Hwf1.
  destruct (cadastrar_medico_effect s nome p) as (Hobjs & Hnext & Hmed & _ & Hcase).
  destruct Hcase as [[Hr Hnd]|Hr]; [|congruence].
  assert (r = next s) as -> by congruence.
  assert (bem_formado s' ∧ (next s < next s')%nat
          ∧ Medico_id (objs s' (next s)) = Z.of_nat (length (medicos s)) + 1
          ∧ (next s ∈ medicos s' → localizavel s' (next s))) as (_ & _ & ? & ?);
    [|done].
  subst s'. induction cs as [|c cs IH] using rev_ind.
  - cbn [fold_left]. split; [done|]. split; [lia|].
    split; [by rewrite Hobjs, fn_lookup_insert|].
    intros Hin. by apply obter_medico_por_id_NoDup.
  - rewrite fold_left_executar_snoc.
    destruct IH as (Hwf' & Hlt & Hid & Hloc).
    set (t := fold_left executar cs (cadastrar_medico nome p s).1) in *.
    destruct (executar_frame t c (next s) Hwf' Hlt) as (Hle & Hid' & Hback).
    split; [by apply bem_formado_executar|]. split; [lia|].
    split; [congruence|]. intros Hin.
    apply localizavel_executar; auto.
Qed.

(** Doctor B registered after doctor A, A then removed and B updated. *)
Lemma obter_medico_por_id_registered_witness :
  let s := (cadastrar_medico "B" 30 (sessao [CadastrarMedico "A" 20])).1 in
  let s' :=
    fold_left executar [RemoverMedico 1; AtualizarMedico 2 None (Some 35%float)] s in
  obter_medico_por_id s' 2 = Some 1%nat.
Proof.
  cbv zeta.
  destruct (obter_medico_por_id_registered (sessao [CadastrarMedico "A" 20])
              "B" 30 1%nat [RemoverMedico 1; AtualizarMedico 2 None (Some 35%float)]
              (bem_formado_sessao _) eq_refl) as [Hid H].
  rewrite Hid in H. apply H. vm_compute. by left.
Defined.

(** C2. A doctor in the list is meant to be the one its id looks up. After
    [sessao_colisao] doctor C is listed with id 2, and looking 2 up returns
    doctor B. *)
Theorem obter_medico_por_id_returns_other :
  let s := sessao sessao_colisao in
  listar_medicos s = [1%nat; 2%nat]
  ∧ objs s 2%nat = mkMedico 2 "C" 40
  ∧ obter_medico_por_id s (Medico_id (objs s 2%nat)) = Some 1%nat
  ∧ objs s 1%nat = mkMedico 2 "B" 30.
Proof. by vm_compute. Qed.

(** ** The scenarios of the specification *)

(** Dr. A at 20 %, one appointment of 100: ids 1 and 1, payout 20, and the
    report. *)
Example cenario_relatorio :
  let s := sessao sessao_dr_a in
  medicos_ids s = [1]
  ∧ Atendimento_id <$> atendimentos s = [1]
  ∧ calcular_repasse s <$> atendimentos s = [20%float]
  ∧ (relatorio_financeiro s).2 = Ok (mkRelatorio 100 20 80 1 1).
Proof. by vm_compute. Qed.

(** The percentage set to 50: the payout of the appointment is 50. *)
Example cenario_atualizar :
  let s := executar (sessao sessao_dr_a) (AtualizarMedico 1 None (Some 50%float)) in
  calcular_repasse s <$> atendimentos s = [50%float].
Proof. by vm_compute. Qed.

(** Dr. A removed: the appointment is still listed; after a restart it is
    not. *)
Example cenario_remover :
  let s := executar (sessao sessao_dr_a) (RemoverMedico 1) in
  Atendimento_id <$> listar_atendimentos s = [1]
  ∧ listar_atendimentos (Financeiro_init (db s)) = [].
Proof. by vm_compute. Qed.

(** * Further properties of the store *)

(** ** What an update leaves alone *)

(** X4. [atualizar_medico] never changes which doctor an id resolves to: no id
    is assigned and the list is not touched. *)
Theorem atualizar_medico_keeps_lookup
    (s : Financeiro) (medico_id : Z) (nome : option string)
    (percentual_repasse : option float) (i : Z) :
  obter_medico_por_id (atualizar_medico medico_id nome percentual_repasse s).1 i
  = obter_medico_por_id s i.
Proof.
  destruct (obter_medico_por_id s medico_id) as [r|] eqn:E;
    [|by rewrite (atualizar_medico_None _ _ _ _ E)].
  destruct (atualizar_medico_Some s medico_id nome percentual_repasse r E)
    as (_ & _ & Hmed & _ & Hr & Ho).
  unfold obter_medico_por_id. rewrite Hmed.
  apply find_ext_Forall, Forall_forall. intros r' _.
  destruct (decide (r' = r)) as [->|Hne]; [by rewrite Hr|by rewrite Ho].
Qed.

(** X5. The payout of an appointment changes only when [atualizar_medico]
    assigns a percentage to the very doctor the appointment holds: a change
    of name changes no payout, and no call changes the payout of an
    appointment of another doctor. *)
Theorem atualizar_medico_keeps_other_payouts
    (s : Financeiro) (medico_id : Z) (nome : option string)
    (percentual_repasse : option float) (a : Atendimento) :
  percentual_repasse = None
  ∨ obter_medico_por_id s medico_id ≠ Some (Atendimento_medico a) →
  calcular_repasse (atualizar_medico medico_id nome percentual_repasse s).1 a
  = calcular_repasse s a.
Proof.
  intros Hcase. unfold calcular_repasse.
  destruct (obter_medico_por_id s medico_id) as [r|] eqn:E;
    [|by rewrite (atualizar_medico_None _ _ _ _ E)].
  destruct (atualizar_medico_Some s medico_id nome percentual_repasse r E)
    as (_ & _ & _ & _ & Hr & Ho).
  destruct (decide (Atendimento_medico a = r)) as [Ha|Hne]; [|by rewrite Ho].
  rewrite Ha, Hr. destruct Hcase as [->|Hdiff]; [done|]. congruence.
Qed.

Lemma atualizar_medico_keeps_other_payouts_witness :
  let s := sessao sessao_dr_a in
  let a := mkAtendimento 1 0%nat 100 in
  calcular_repasse (atualizar_medico 1 (Some "Dra. A"%string) None s).1 a
  = 20%float.
Proof.
  cbv zeta.
  rewrite (atualizar_medico_keeps_other_payouts (sessao sessao_dr_a) 1
             (Some "Dra. A"%string) None (mkAtendimento 1 0%nat 100)
             (or_introl eq_refl)).
  reflexivity.
Defined.

(** ** Appointments along a session *)

Lemma atendimentos_executar (s : Financeiro) (c : chamada) :
  atendimentos (executar s c) = atendimentos s
  ∨ ∃ r v, atendimentos (executar s c)
           = atendimentos s
             ++ [mkAtendimento (Z.of_nat (length (atendimentos s)) + 1) r v].
Proof.
  destruct c as [n p|i n p|i|i v]; cbn [executar].
  - left. by destruct (cadastrar_medico_effect s n p) as (_ & _ & _ & -> & _).
  - left. destruct (obter_medico_por_id s i) as [r|] eqn:E.
    + by destruct (atualizar_medico_Some s i n p r E) as (_ & _ & _ & -> & _).
    + by rewrite (atualizar_medico_None _ _ _ _ E).
  - left. destruct (obter_medico_por_id s i) as [r|] eqn:E.
    + by destruct (remover_medico_Some s i r E) as (_ & _ & _ & _ & ->).
    + by rewrite (remover_medico_None _ _ E).
  - destruct (obter_medico_por_id s i) as [r|] eqn:E.
    + right. exists r, v.
      by destruct (registrar_atendimento_Some s i v r E) as (-> & _).
    + left. by rewrite (registrar_atendimento_None _ _ _ E).
Qed.

(** X7. No call removes, reorders or alters an appointment: whatever is called,
    and whether or not it raises, the appointments that were listed are
    still listed, as they were, at the front of the list. *)
Theorem atendimentos_only_grow (s : Financeiro) (cs : list chamada) :
  atendimentos s `prefix_of` atendimentos (fold_left executar cs s).
Proof.
  induction cs as [|c cs IH] using rev_ind; [done|].
  rewrite fold_left_executar_snoc. etransitivity; [exact IH|].
  destruct (atendimentos_executar (fold_left executar cs s) c) as [->|(r & v & ->)];
    [done|by apply prefix_app_r].
Qed.

(** X8. In a process started on an empty database the ids of the appointments
    are 1, 2, ..., in list order, hence pairwise distinct: no call removes
    an appointment. *)
Theorem atendimentos_ids_sequential (cs : list chamada) :
  Atendimento_id <$> atendimentos (sessao cs)
  = Z.of_nat <$> seq 1 (length (atendimentos (sessao cs)))
  ∧ NoDup (Atendimento_id <$> atendimentos (sessao cs)).
Proof.
  assert (Atendimento_id <$> atendimentos (sessao cs)
          = Z.of_nat <$> seq 1 (length (atendimentos (sessao cs)))) as H.
  { unfold sessao. induction cs as [|c cs IH] using rev_ind; [done|].
    rewrite fold_left_executar_snoc.
    destruct (atendimentos_executar (fold_left executar cs vazio) c)
      as [->|(r & v & ->)]; [done|].
    rewrite fmap_app, IH, length_app. cbn [length fmap list_fmap Atendimento_id].
    rewrite Nat.add_1_r, seq_S, fmap_app. cbn [fmap list_fmap].
    do 2 f_equal. lia. }
  split; [done|]. rewrite H. apply NoDup_fmap_2; [apply _|apply NoDup_seq].
Qed.

(** ** Registering, removing and looking up *)

Lemma find_app {A : Type} (f : A → bool) (l l' : list A) :
  find f (l ++ l') = match find f l with Some x => Some x | None => find f l' end.
Proof. induction l as [|y l IH]; simpl; [done|]. by destruct (f y). Qed.

Lemma find_list_remove_other (f : ref → bool) (l : list ref) (r0 : ref) :
  f r0 = false → find f (list_remove r0 l) = find f l.
Proof.
  intros Hf. induction l as [|x l IH]; simpl; [done|].
  destruct (decide (x = r0)) as [->|Hx]; [by rewrite Hf|].
  simpl. by rewrite IH.
Qed.

(** X1. [cadastrar_medico] adds one doctor at the end of the list, with the id
    [len + 1] and the name and percentage given, whether or not the snapshot
    is then written. The doctors that were listed are the same objects with
    the same attributes, the appointments and their payouts are what they
    were, every other id resolves as before, and the new id resolves to the
    new doctor when no listed doctor carried it. *)
Theorem cadastrar_medico_frame (s : Financeiro) (nome : string) (p : float) :
  bem_formado s →
  let s' := (cadastrar_medico nome p s).1 in
  let novo := Z.of_nat (length (medicos s)) + 1 in
  ∃ r, medicos s' = medicos s ++ [r] ∧ (r ∉ medicos s)
    ∧ objs s' r = mkMedico novo nome p
    ∧ (∀ r', r' ∈ medicos s → objs s' r' = objs s r')
    ∧ atendimentos s' = atendimentos s
    ∧ (∀ a, a ∈ atendimentos s → calcular_repasse s' a = calcular_repasse s a)
    ∧ (∀ i, i ≠ novo → obter_medico_por_id s' i = obter_medico_por_id s i)
    ∧ (novo ∉ medicos_ids s → obter_medico_por_id s' novo = Some r).
Proof.
  intros (Hnd & Hmed & Hat) s' novo. subst s' novo.
  rewrite Forall_forall in Hmed. rewrite Forall_forall in Hat.
  destruct (cadastrar_medico_effect s nome p) as (Hobjs & _ & Hm & Ha & _).
  assert (∀ r', (r' < next s)%nat
                → objs (cadastrar_medico nome p s).1 r' = objs s r') as Hold.
  { intros r' Hr'. rewrite Hobjs. apply fn_lookup_insert_ne. lia. }
  assert (∀ i, find (λ r, Medico_id (objs (cadastrar_medico nome p s).1 r) =? i)
                 (medicos s) = obter_medico_por_id s i) as Hfind.
  { intros i. apply find_ext_Forall, Forall_forall. intros r' Hr'.
    by rewrite Hold by auto. }
  exists (next s). split; [done|]. split.
  { intros Hin. specialize (Hmed _ Hin). lia. }
  split; [by rewrite Hobjs, fn_lookup_insert|]. split; [by auto|].
  split; [done|]. split.
  { intros a Ha'. unfold calcular_repasse. by rewrite Hold by auto. }
  unfold obter_medico_por_id at 1 3. rewrite Hm. split.
  - intros i Hi. rewrite find_app, Hfind. simpl.
    rewrite Hobjs, fn_lookup_insert. simpl.
    destruct (Z.eqb_spec (Z.of_nat (length (medicos s)) + 1) i); [congruence|].
    by destruct (obter_medico_por_id s i).
  - intros Hnew%obter_medico_por_id_None. rewrite find_app, Hfind, Hnew. simpl.
    by rewrite Hobjs, fn_lookup_insert, Z.eqb_refl.
Qed.

Lemma cadastrar_medico_frame_witness :
  let s := sessao sessao_dr_a in
  let s' := (cadastrar_medico "Dr. B" 30 s).1 in
  ∃ r, medicos s' = medicos s ++ [r]
       ∧ objs s' r = mkMedico 2 "Dr. B" 30
       ∧ obter_medico_por_id s' 2 = Some r.
Proof.
  cbv zeta.
  destruct (cadastrar_medico_frame (sessao sessao_dr_a) "Dr. B" 30
              (bem_formado_sessao sessao_dr_a))
    as (r & Hm & _ & Ho & _ & _ & _ & _ & Hnew).
  exists r. split; [exact Hm|]. split; [exact Ho|].
  apply Hnew. vm_compute. by intros [=]%list_elem_of_singleton.
Defined.

(** X6. After [remover_medico] has taken a doctor out, every other id resolves
    as before; the id removed resolves to nothing when ids were pairwise
    distinct (with a second doctor of the same id it resolves to that
    one). *)
Theorem remover_medico_lookup (s : Financeiro) (medico_id : Z) (r : ref) :
  obter_medico_por_id s medico_id = Some r →
  let s' := (remover_medico medico_id s).1 in
  (∀ i, i ≠ medico_id → obter_medico_por_id s' i = obter_medico_por_id s i)
  ∧ (NoDup (medicos_ids s) → obter_medico_por_id s' medico_id = None).
Proof.
  intros Hr s'. subst s'.
  destruct (remover_medico_Some s medico_id r Hr) as (_ & Hobjs & _ & Hm & _).
  destruct (obter_medico_por_id_Some _ _ _ Hr) as [_ Hid].
  split.
  - intros i Hi. unfold obter_medico_por_id. rewrite Hobjs, Hm.
    apply find_list_remove_other. apply Z.eqb_neq. congruence.
  - intros Hnd. apply obter_medico_por_id_None. unfold medicos_ids in *.
    rewrite Hobjs, Hm.
    destruct (obter_medico_por_id_first _ _ _ Hr) as (l1 & l2 & Hl & _ & ->).
    rewrite Hl, fmap_app, fmap_cons, Hid in Hnd.
    apply NoDup_app in Hnd as (_ & H1 & [H2 _]%NoDup_cons).
    rewrite fmap_app. intros [Hin|Hin]%elem_of_app; [|done].
    apply (H1 _ Hin). by left.
Qed.

Lemma remover_medico_lookup_witness :
  let s := sessao [CadastrarMedico "A" 20; CadastrarMedico "B" 30] in
  obter_medico_por_id (remover_medico 1 s).1 2 = Some 1%nat
  ∧ obter_medico_por_id (remover_medico 1 s).1 1 = None.
Proof.
  cbv zeta.
  destruct (remover_medico_lookup
              (sessao [CadastrarMedico "A" 20; CadastrarMedico "B" 30]) 1 0%nat
              eq_refl) as [H1 H2].
  split.
  - rewrite H1 by done. reflexivity.
  - apply H2. apply (bool_decide_unpack _). by vm_compute.
Defined.

(** ** When the snapshot is written *)









(** ** What a reload guarantees *)

(** X11. Whatever the file holds and whatever memory held, [carregar_dados]
    returns, does not write to the file, and leaves lists in which the
    doctors are distinct objects, one per row of [medicos], and every
    appointment holds a listed doctor; there are no more appointments than
    rows of [atendimentos]. Loading again brings the same rows. *)
Theorem carregar_dados_integrity (s : Financeiro) :
  let s' := (carregar_dados s).1 in
  (carregar_dados s).2 = Ok tt
  ∧ db s' = db s
  ∧ NoDup (medicos s')
  ∧ length (medicos s') = length (tbl_medicos (db s))
  ∧ Forall (λ a, Atendimento_medico a ∈ medicos s') (atendimentos s')
  ∧ (length (atendimentos s') ≤ length (tbl_atendimentos (db s)))%nat
  ∧ medico_row (carregar_dados s').1 <$> medicos (carregar_dados s').1
    = medico_row s' <$> medicos s'
  ∧ atendimento_row (carregar_dados s').1 <$> atendimentos (carregar_dados s').1
    = atendimento_row s' <$> atendimentos s'.
Proof.
  intros s'. subst s'.
  destruct (carregar_dados_spec s) as (Hres & Hdb & Hseq & Hm & Ha & Hlink).
  destruct (carregar_dados_spec (carregar_dados s).1) as (_ & _ & _ & Hm' & Ha' & _).
  rewrite Hdb in Hm', Ha'.
  split; [done|]. split; [done|]. split; [rewrite Hseq; apply NoDup_seq|].
  split; [by rewrite Hseq, length_seq|]. split; [done|]. split.
  - rewrite <- (length_fmap (atendimento_row (carregar_dados s).1)), Ha.
    apply length_filter.
  - by rewrite Hm', Ha', Hm, Ha.
Qed.




(** ** The routes *)

(** X15. The four outcomes of [novo_atendimento]. An amount that is not greater
    than zero is rejected and an unknown doctor is refused, both with the
    state untouched; otherwise the appointment is appended, with the amount
    given, the doctor of that id and the id [len + 1], and the payout
    flashed is the amount times the hundredth of the doctor's percentage.
    The route raises only out of [salvar_dados], the appointment appended. *)
Theorem novo_atendimento_outcomes
    (s : Financeiro) (medico_id : Z) (valor : float) :
  let s' := (novo_atendimento medico_id valor s).1 in
  let registrado r :=
    atendimentos s'
    = atendimentos s
      ++ [mkAtendimento (Z.of_nat (length (atendimentos s)) + 1) r valor] in
  match (novo_atendimento medico_id valor s).2 with
  | Ok ValorDeveSerMaiorQueZero => (0 <? valor)%float = false ∧ s' = s
  | Ok MedicoInvalido =>
      (0 <? valor)%float = true ∧ (medico_id ∉ medicos_ids s) ∧ s' = s
  | Ok (AtendimentoRegistrado repasse) =>
      (0 <? valor)%float = true
      ∧ ∃ r, obter_medico_por_id s medico_id = Some r ∧ registrado r
             ∧ repasse
               = (valor * (Medico_percentual_repasse (objs s r) / 100))%float
  | Raise _ =>
      (0 <? valor)%float = true
      ∧ ∃ r, obter_medico_por_id s medico_id = Some r ∧ registrado r
  end.
Proof.
  cbv zeta. unfold novo_atendimento.
  destruct (0 <? valor)%float eqn:Hpos; [|done]. metodo.
  destruct (obter_medico_por_id s medico_id) as [r|] eqn:E.
  - pose proof (registrar_atendimento_Some s medico_id valor r E) as H.
    destruct (registrar_atendimento medico_id valor s) as [s1 res].
    cbn [fst snd] in H. destruct H as (Hat & _ & Hobjs & _ & [-> | ->] & _); metodo.
    + split; [done|]. exists r. repeat split; [done|].
      unfold calcular_repasse. by rewrite Hobjs.
    + split; [done|]. by exists r.
  - rewrite (registrar_atendimento_None _ _ _ E). metodo.
    split; [done|]. split; [|done]. by apply obter_medico_por_id_None.
Qed.



(** X17. [editar_medico] checks nothing of what it passes on: when the id
    resolves, the doctor found gets the name and the percentage submitted,
    whatever they are, an empty name and a negative percentage included, and
    keeps its id. The route never reports a failed update: the lookup it
    makes first is the one [atualizar_medico] repeats. *)
Theorem editar_medico_assigns_unchecked
    (s : Financeiro) (id : Z) (nome : string) (perc : float) :
  (editar_medico id nome perc s).2 ≠ Ok ErroAoAtualizar
  ∧ match obter_medico_por_id s id with
    | None => editar_medico id nome perc s = (s, Ok MedicoNaoEncontrado)
    | Some r =>
        objs (editar_medico id nome perc s).1 r
        = mkMedico (Medico_id (objs s r)) nome perc
        ∧ ((editar_medico id nome perc s).2 = Ok MedicoAtualizado
           ∨ (editar_medico id nome perc s).2 = Raise IntegrityError)
    end.
Proof.
  unfold editar_medico. metodo.
  destruct (obter_medico_por_id s id) as [r|] eqn:E; [|by metodo].
  pose proof (atualizar_medico_Some s id (Some nome) (Some perc) r E) as H.
  destruct (atualizar_medico id (Some nome) (Some perc) s) as [s1 res].
  cbn [fst snd default] in H.
  destruct H as ([-> | ->] & _ & _ & _ & Hr & _); metodo; by auto.
Qed.

(** ** The report and the doctors *)

(** X14. Registering a doctor changes no figure of the report but the number of
    doctors, which grows by one: the amounts billed, the payouts and their
    difference are those of the appointments, which the call leaves as they
    were. *)
Theorem relatorio_financeiro_cadastrar_medico
    (s : Financeiro) (nome : string) (p : float) :
  bem_formado s →
  let s' := (cadastrar_medico nome p s).1 in
  ∃ rep rep',
    relatorio_financeiro s = (s, Ok rep)
    ∧ relatorio_financeiro s' = (s', Ok rep')
    ∧ faturamento_total rep' = faturamento_total rep
    ∧ total_repasse rep' = total_repasse rep
    ∧ lucro_liquido rep' = lucro_liquido rep
    ∧ qtd_atendimentos rep' = qtd_atendimentos rep
    ∧ qtd_medicos rep' = qtd_medicos rep + 1.
Proof.
  intros (_ & _ & Hat) s'. subst s'.
  destruct (cadastrar_medico_effect s nome p) as (Hobjs & _ & Hm & Ha & _).
  do 2 eexists. do 2 (split; [apply relatorio_financeiro_unfold|]).
  cbn [faturamento_total total_repasse lucro_liquido qtd_atendimentos qtd_medicos].
  assert (calcular_repasse (cadastrar_medico nome p s).1 <$> atendimentos s
          = calcular_repasse s <$> atendimentos s) as Hpay.
  { apply list_fmap_ext. intros k a Hk%list_elem_of_lookup_2.
    rewrite Forall_forall in Hat. specialize (Hat _ Hk).
    unfold calcular_repasse. rewrite Hobjs.
    by rewrite fn_lookup_insert_ne by lia. }
  rewrite Ha, Hm, Hpay, length_app. cbn [length].
  repeat split. lia.
Qed.

Lemma relatorio_financeiro_cadastrar_medico_witness :
  (relatorio_financeiro (cadastrar_medico "Dr. B" 30 (sessao sessao_dr_a)).1).2
  = Ok (mkRelatorio 100 20 80 1 2).
Proof.
  destruct (relatorio_financeiro_cadastrar_medico (sessao sessao_dr_a) "Dr. B" 30
              (bem_formado_sessao _))
    as (rep & rep' & H & H' & H1 & H2 & H3 & H4 & H5).
  rewrite H'. cbn [snd]. f_equal.
  assert (rep = mkRelatorio 100 20 80 1 1) as -> by (by injection H).
  destruct rep'. cbn in *. by subst.
Defined.
